(** * Koch curve and Koch snowflake (koch.py)

    A shallow embedding of [third], [conver], [koch] and [flake].

    - Python lists are [list]s, indices and loop counters are [Z], and the
      statements that can raise ([L[i]], [del t[-1]]) run in a small
      exception monad.  [/] is true division, as in Python 3.
    - Coordinates are kept abstract behind the class [Scalar], which lists
      exactly the arithmetic the script performs on them.  It has two
      instances: binary64, which is what numpy computes with, and the real
      numbers, which is the same formulas in exact arithmetic.  Everything
      that concerns the shape of the polylines is proved for every [Scalar].
      What depends on the arithmetic (the formula of the apex, the lengths
      in a bump) is proved on the binary64 instance, from the specification
      of the primitive floats or by evaluation; the exact counterparts are
      kept beside them. *)

From Stdlib Require Import ZArith List Lia Bool String.
From Stdlib Require Import Reals Lra.
From Stdlib Require Import Floats Uint63.
Import ListNotations.

Set Implicit Arguments.

(** ** Python fragments *)

Module Py.

Inductive error : Type :=
| IndexError
| TypeError
| ValueError.

Inductive exc (A : Type) : Type :=
| Ok (a : A)
| Raise (e : error).

Arguments Ok {A} a.
Arguments Raise {A} e.

Definition bind {A B : Type} (c : exc A) (k : A -> exc B) : exc B :=
  match c with
  | Ok a => k a
  | Raise e => Raise e
  end.

Definition len {A : Type} (L : list A) : Z := Z.of_nat (List.length L).

(** [L[i]]: a negative index counts from the end. *)
Definition getitem {A : Type} (L : list A) (i : Z) : exc A :=
  let j := if (i <? 0)%Z then (i + len L)%Z else i in
  if (j <? 0)%Z then Raise IndexError
  else match nth_error L (Z.to_nat j) with
       | Some a => Ok a
       | None => Raise IndexError
       end.

(** [del L[i]]. *)
Definition delitem {A : Type} (L : list A) (i : Z) : exc (list A) :=
  let j := if (i <? 0)%Z then (i + len L)%Z else i in
  if ((j <? 0) || (len L <=? j))%Z then Raise IndexError
  else Ok (firstn (Z.to_nat j) L ++ skipn (S (Z.to_nat j)) L).

(** [range(a, b)]. *)
Definition range (a b : Z) : list Z :=
  map (fun k => (a + Z.of_nat k)%Z) (seq 0 (Z.to_nat (b - a))).

(** [for x in xs: s = body(x, s)]. *)
Fixpoint for_each {A S : Type} (xs : list A) (body : A -> S -> exc S) (s : S)
  : exc S :=
  match xs with
  | [] => Ok s
  | x :: rest => bind (body x s) (for_each rest body)
  end.

End Py.

Import Py.

Notation "x <- c ;; k" := (Py.bind c (fun x => k))
(at level 61, c at next level, right associativity).

(** ** Coordinates *)

Class Scalar (T : Type) : Type := {
of_Z : Z -> T;
add : T -> T -> T;
sub : T -> T -> T;
mul : T -> T -> T;
div : T -> T -> T;
sqrt : T -> T
}.

Definition float_of_Z (z : Z) : float :=
if (z <? 0)%Z then PrimFloat.opp (PrimFloat.of_uint63 (Uint63.of_Z (- z)))
else PrimFloat.of_uint63 (Uint63.of_Z z).

#[export] Instance Scalar_binary64 : Scalar float := {
of_Z := float_of_Z;
add := PrimFloat.add;
sub := PrimFloat.sub;
mul := PrimFloat.mul;
div := PrimFloat.div;
sqrt := PrimFloat.sqrt
}.

#[export] Instance Scalar_R : Scalar R := {
of_Z := IZR;
add := Rplus;
sub := Rminus;
mul := Rmult;
div := Rdiv;
sqrt := R_sqrt.sqrt
}.

(** ** The script *)

Section Koch.

Context {T : Type} {ST : Scalar T}.

(** A point, [[x, y]] or [np.array([x, y])]. *)
Record point : Type := Point { px : T; py : T }.

(** A 2x2 array, by rows. *)
Record matrix : Type := Matrix { m00 : T; m01 : T; m10 : T; m11 : T }.

Definition vadd (u v : point) : point :=
  Point (add (px u) (px v)) (add (py u) (py v)).

Definition vsub (u v : point) : point :=
  Point (sub (px u) (px v)) (sub (py u) (py v)).

(** [c * v] *)
Definition smul (c : T) (v : point) : point :=
  Point (mul c (px v)) (mul c (py v)).

(** [v / c] *)
Definition vdiv (v : point) (c : T) : point :=
  Point (div (px v) c) (div (py v) c).

(** [M.dot(v)] *)
Definition dot (M : matrix) (v : point) : point :=
  Point (add (mul (m00 M) (px v)) (mul (m01 M) (py v)))
        (add (mul (m10 M) (px v)) (mul (m11 M) (py v))).

Definition third (a b : point) : list point :=
  let R := Matrix (of_Z 0) (of_Z (-1)) (of_Z 1) (of_Z 0) in
  let x := a in
  let y := b in
  [ x;
    vadd (smul (div (of_Z 2) (of_Z 3)) x) (smul (div (of_Z 1) (of_Z 3)) y);
    vadd (vdiv (vadd x y) (of_Z 2))
         (smul (div (sqrt (of_Z 3)) (of_Z 6)) (dot R (vsub y x)));
    vadd (smul (div (of_Z 1) (of_Z 3)) x) (smul (div (of_Z 2) (of_Z 3)) y);
    y ].

Definition conver (L : list point) : exc (list (list T)) :=
  st <- for_each (range 0 (len L))
          (fun i (st : list T * list T) =>
             let (xCoord, yCoord) := st in
             p <- getitem L i ;;
             let xCoord := xCoord ++ [px p] in
             q <- getitem L i ;;
             let yCoord := yCoord ++ [py q] in
             Ok (xCoord, yCoord))
          ([], []) ;;
  Ok [fst st; snd st].

(** The body of the loop over [i] in [koch] and in [flake]; they differ in
    the point appended after the loop over [s] only. *)
Definition generation (closing : point) (L : list point) : exc (list point) :=
  let K := [] in
  let l := len L in
  K <- for_each (range 0 (l - 1))
         (fun s K =>
            a <- getitem L s ;;
            b <- getitem L (s + 1) ;;
            t <- delitem (third a b) (-1) ;;
            Ok (K ++ t))
         K ;;
  Ok (K ++ [closing]).

(** The loop over [i], from the list [L] it starts with. *)
Definition generations (closing : point) (L : list point) (n : Z)
  : exc (list point) :=
  for_each (range 0 n) (fun _ L => generation closing L) L.

(** The calls made to [matplotlib.pyplot]. *)
Inductive plt : Type :=
| xlim (lo hi : Z)
| ylim (lo hi : Z)
| axis (option : string)
| plot (xs ys : list T).

Definition draw (lo hi : Z) (L : list point) : exc (list plt) :=
  c0 <- conver L ;;
  xs <- getitem c0 0 ;;
  c1 <- conver L ;;
  ys <- getitem c1 1 ;;
  Ok [xlim lo hi; ylim lo hi; axis "equal"; plot xs ys].

Definition koch_base : list point :=
  [Point (of_Z 0) (of_Z 0); Point (of_Z 3) (of_Z 0)].

Definition koch_closing : point := Point (of_Z 3) (of_Z 0).

(** The list [L] that [koch(n)] has after its loop. *)
Definition koch_L (n : Z) : exc (list point) :=
  generations koch_closing koch_base n.

Definition koch (n : Z) : exc (list plt) :=
  L <- koch_L n ;;
  draw 0 3 L.

(** The literal [1.5]. *)
Definition lit_1_5 : T := div (of_Z 15) (of_Z 10).

Definition flake_base : list point :=
  [Point (of_Z 0) (of_Z 0); Point (of_Z 3) (of_Z 0);
   Point lit_1_5 (div (mul (of_Z (-3)) (sqrt (of_Z 3))) (of_Z 2));
   Point (of_Z 0) (of_Z 0)].

Definition flake_closing : point := Point (of_Z 0) (of_Z 0).

(** The list [L] that [flake(n)] has after its loop. *)
Definition flake_L (n : Z) : exc (list point) :=
  generations flake_closing flake_base n.

Definition flake (n : Z) : exc (list plt) :=
  L <- flake_L n ;;
  draw (-3) 3 L.

End Koch.

Arguments point T : clear implicits.
Arguments matrix T : clear implicits.
Arguments plt T : clear implicits.

(** ** The passes, as functions on lists

    One pass replaces each pair of neighbours by the first four points of
    their [third] and ends with the closing point. *)

Section Passes.

Context {T : Type} {ST : Scalar T}.

Fixpoint bumps (L : list (point T)) : list (point T) :=
  match L with
  | a :: (b :: _) as rest => firstn 4 (third a b) ++ bumps rest
  | _ => []
  end.

Definition pass (closing : point T) (L : list (point T)) : list (point T) :=
  bumps L ++ [closing].

Fixpoint passes (closing : point T) (k : nat) (L : list (point T))
  : list (point T) :=
  match k with
  | O => L
  | S k' => passes closing k' (pass closing L)
  end.

(** Two points at least, the first is [a], the last is [closing]: kept by
    every pass. *)
Definition anchored (a closing : point T) (L : list (point T)) : Prop :=
  (2 <= List.length L)%nat
  /\ getitem L 0 = Ok a /\ getitem L (-1) = Ok closing.

End Passes.

(** ** Real plane geometry, to state the metric facts *)

Definition rot (d : point R) : point R := Point (- py d)%R (px d).

Definition inner (u v : point R) : R := (px u * px v + py u * py v)%R.

Definition norm (v : point R) : R := R_sqrt.sqrt (inner v v).

Definition dist (p q : point R) : R := norm (vsub q p).

Definition midpoint (a b : point R) : point R := vdiv (vadd a b) 2%R.

(** ** Binary64: reading the floats *)

(** Neither an infinity nor a NaN. *)
Definition finite64 (x : float) : bool :=
  match Prim2SF x with
  | S754_zero _ | S754_finite _ _ _ => true
  | _ => false
  end.

Definition zero64 (x : float) : bool :=
  match Prim2SF x with
  | S754_zero _ => true
  | _ => false
  end.

(** The same number: the same float, or two zeros, whatever their signs. *)
Definition same_number (x y : float) : Prop :=
  x = y \/ (zero64 x = true /\ zero64 y = true).

Definition same_point (p q : point float) : Prop :=
  same_number (px p) (px q) /\ same_number (py p) (py q).

(** The quarter turn [(dx, dy) -> (-dy, dx)]. *)
Definition rot64 (d : point float) : point float :=
  Point (PrimFloat.opp (py d)) (px d).

Section Formula.

Context {T : Type} {ST : Scalar T}.

(** The five points written with a quarter turn [rot] in the place of the
    product by the matrix. *)
Definition five_points (rot : point T -> point T) (a b : point T)
  : list (point T) :=
  [ a;
    vadd (smul (div (of_Z 2) (of_Z 3)) a) (smul (div (of_Z 1) (of_Z 3)) b);
    vadd (vdiv (vadd a b) (of_Z 2))
         (smul (div (sqrt (of_Z 3)) (of_Z 6)) (rot (vsub b a)));
    vadd (smul (div (of_Z 1) (of_Z 3)) a) (smul (div (of_Z 2) (of_Z 3)) b);
    b ].

End Formula.

(** A dyadic number, [dm * 2^de]: what a finite float is, exactly. *)
Record dyadic : Type := Dy { dm : Z; de : Z }.

Definition exact (x : float) : option dyadic :=
  match Prim2SF x with
  | S754_zero _ => Some (Dy 0 0)
  | S754_finite s m e => Some (Dy (cond_Zopp s (Zpos m)) e)
  | _ => None
  end.


















(** ** Facts about the Python fragments *)

Section PyFacts.

Context {A : Type}.

Lemma getitem_nat (L : list A) (i : nat) :
  getitem L (Z.of_nat i) =
  match nth_error L i with Some a => Ok a | None => Raise IndexError end.
Proof.
  unfold getitem.
  destruct (Z.ltb_spec (Z.of_nat i) 0) as [H | H]; [lia |].
  destruct (Z.ltb_spec (Z.of_nat i) 0); [lia |].
  now rewrite Nat2Z.id.
Qed.

Lemma getitem_middle (pre : list A) (a : A) (rest : list A) :
  getitem (pre ++ a :: rest) (Z.of_nat (List.length pre)) = Ok a.
Proof.
  rewrite getitem_nat, nth_error_app2, Nat.sub_diag by lia.
  reflexivity.
Qed.

Lemma getitem_last (L : list A) (a : A) : getitem (L ++ [a]) (-1) = Ok a.
Proof.
  unfold getitem, len. rewrite length_app. cbn [List.length Z.ltb Z.compare].
  replace (-1 + Z.of_nat (List.length L + 1))%Z
    with (Z.of_nat (List.length L)) by lia.
  destruct (Z.ltb_spec (Z.of_nat (List.length L)) 0); [lia |].
  rewrite Nat2Z.id, nth_error_app2, Nat.sub_diag by lia.
  reflexivity.
Qed.

Lemma range_0 (n : Z) :
  range 0 n = map (fun k => (0 + Z.of_nat k)%Z) (seq 0 (Z.to_nat n)).
Proof. unfold range. now rewrite Z.sub_0_r. Qed.

Lemma range_nonpos (n : Z) : (n <= 0)%Z -> range 0 n = [].
Proof.
  intros H. rewrite range_0.
  replace (Z.to_nat n) with O by lia. reflexivity.
Qed.

End PyFacts.

(** ** The loops compute the passes *)

Section Loops.

Context {T : Type} {ST : Scalar T}.

Implicit Types (L K : list (point T)) (a b closing : point T).

Lemma third_del_last a b :
  delitem (third a b) (-1) = Ok (firstn 4 (third a b)).
Proof. reflexivity. Qed.

(** The loop over [s], started at index [length pre] with [K] built so
    far. *)
Lemma loop_s_bumps (rest pre : list (point T)) K :
  for_each
    (map (fun k => (0 + Z.of_nat k)%Z)
         (seq (List.length pre) (List.length rest - 1)))
    (fun s K =>
       a <- getitem (pre ++ rest) s ;;
       b <- getitem (pre ++ rest) (s + 1) ;;
       t <- delitem (third a b) (-1) ;;
       Ok (K ++ t))
    K
  = Ok (K ++ bumps rest).
Proof.
  revert pre K.
  induction rest as [| a rest IH]; intros pre K.
  - cbn. now rewrite app_nil_r.
  - destruct rest as [| b rest].
    + cbn. now rewrite app_nil_r.
    + cbn [List.length Nat.sub seq map for_each].
      rewrite Z.add_0_l, getitem_middle. cbn [bind].
      replace (Z.of_nat (List.length pre) + 1)%Z
        with (Z.of_nat (List.length (pre ++ [a]))).
      2:{ rewrite length_app. cbn [List.length]. lia. }
      replace (pre ++ a :: b :: rest) with ((pre ++ [a]) ++ b :: rest)
        by now rewrite <- app_assoc.
      rewrite getitem_middle. cbn [bind].
      rewrite third_del_last. cbn [bind].
      specialize (IH (pre ++ [a]) (K ++ firstn 4 (third a b))).
      replace (List.length (b :: rest) - 1)%nat with (List.length rest) in IH
        by (cbn [List.length]; lia).
      rewrite length_app in IH. cbn [List.length] in IH.
      rewrite Nat.add_1_r in IH.
      rewrite IH.
      cbn [bumps]. now rewrite <- app_assoc.
Qed.

Lemma generation_pass closing L :
  generation closing L = Ok (pass closing L).
Proof.
  unfold generation, pass. rewrite range_0.
  replace (Z.to_nat (len L - 1)) with (List.length L - 1)%nat
    by (unfold len; lia).
  pose proof (loop_s_bumps L [] []) as H. cbn [List.length app] in H.
  cbv zeta. rewrite H. reflexivity.
Qed.

Lemma for_each_generation {B : Type} closing (xs : list B) L :
  for_each xs (fun _ L => generation closing L) L
  = Ok (passes closing (List.length xs) L).
Proof.
  revert L. induction xs as [| x xs IH]; intros L; [reflexivity |].
  cbn [for_each List.length passes].
  rewrite generation_pass. cbn [bind]. apply IH.
Qed.

Lemma generations_passes closing L (n : Z) :
  generations closing L n = Ok (passes closing (Z.to_nat n) L).
Proof.
  unfold generations. rewrite for_each_generation, range_0.
  now rewrite length_map, length_seq.
Qed.

Lemma passes_succ closing (k : nat) L :
  passes closing (S k) L = pass closing (passes closing k L).
Proof.
  revert L. induction k as [| k IH]; intros L; [reflexivity |].
  change (passes closing (S (S k)) L)
    with (passes closing (S k) (pass closing L)).
  rewrite IH. reflexivity.
Qed.

(** *** Shape of one pass *)

Lemma bumps_cons2 a b L :
  bumps (a :: b :: L) =
  a :: nth 1 (third a b) a :: nth 2 (third a b) a :: nth 3 (third a b) a
    :: bumps (b :: L).
Proof. reflexivity. Qed.

Lemma length_bumps L : List.length (bumps L) = (4 * (List.length L - 1))%nat.
Proof.
  induction L as [| a [| b L] IH]; [reflexivity | reflexivity |].
  rewrite bumps_cons2. cbn [List.length] in *. lia.
Qed.

Lemma length_pass closing L :
  List.length (pass closing L) = (4 * (List.length L - 1) + 1)%nat.
Proof.
  unfold pass. rewrite length_app, length_bumps. reflexivity.
Qed.

Lemma length_passes closing (k : nat) L :
  (1 <= List.length L)%nat ->
  List.length (passes closing k L)
  = ((List.length L - 1) * 4 ^ k + 1)%nat.
Proof.
  revert L. induction k as [| k IH]; intros L HL.
  - cbn [passes Nat.pow]. lia.
  - cbn [passes]. rewrite IH by (rewrite length_pass; lia).
    rewrite length_pass, Nat.pow_succ_r'. lia.
Qed.

(** The group of the pair at index [k]. *)
Lemma pass_group closing L (k : nat) a b :
  nth_error L k = Some a -> nth_error L (S k) = Some b ->
  firstn 4 (skipn (4 * k) (pass closing L)) = firstn 4 (third a b).
Proof.
  revert k. induction L as [| x L IH]; intros k Ha Hb.
  - destruct k; discriminate.
  - destruct L as [| y L]; [destruct k; discriminate |].
    destruct k as [| k].
    + cbn in Ha, Hb. injection Ha as ->. injection Hb as ->. reflexivity.
    + replace (4 * S k)%nat with (4 + 4 * k)%nat by lia.
      unfold pass. rewrite bumps_cons2.
      change (firstn 4 (skipn (4 * k) (pass closing (y :: L)))
              = firstn 4 (third a b)).
      apply IH; assumption.
Qed.

(** A vertex at index [i] is found again at index [4 * i], as long as the list
    ends with the closing point. *)
Lemma pass_keeps_vertices closing L :
  getitem L (-1) = Ok closing ->
  forall i : nat, (i < List.length L)%nat ->
  nth_error (pass closing L) (4 * i) = nth_error L i.
Proof.
  induction L as [| x L IH]; intros Hlast i Hi; [cbn in Hi; lia |].
  destruct L as [| y L].
  - cbn in Hlast. injection Hlast as ->.
    destruct i; [reflexivity | cbn in Hi; lia].
  - destruct i as [| i]; [reflexivity |].
    replace (4 * S i)%nat with (4 + 4 * i)%nat by lia.
    unfold pass. rewrite bumps_cons2.
    change (nth_error (pass closing (y :: L)) (4 * i)
            = nth_error (y :: L) i).
    apply IH; [| cbn in Hi |- *; lia].
    revert Hlast. clear.
    replace (x :: y :: L) with ([x] ++ y :: L) by reflexivity.
    destruct (exists_last (l := y :: L) ltac:(discriminate)) as [M [z ->]].
    rewrite app_assoc, !getitem_last. trivial.
Qed.

Lemma pass_last closing L : getitem (pass closing L) (-1) = Ok closing.
Proof. apply getitem_last. Qed.

Lemma anchored_pass a closing L :
  anchored a closing L -> anchored a closing (pass closing L).
Proof.
  intros (Hlen & Hfirst & _).
  destruct L as [| x [| y L]]; cbn in Hlen; try lia.
  cbn in Hfirst. injection Hfirst as ->.
  repeat split.
  - rewrite length_pass. cbn [List.length]. lia.
  - apply pass_last.
Qed.

Lemma anchored_passes a closing (k : nat) L :
  anchored a closing L -> anchored a closing (passes closing k L).
Proof.
  revert L. induction k as [| k IH]; intros L H; [exact H |].
  cbn [passes]. apply IH, anchored_pass, H.
Qed.

(** *** The extractor *)

Lemma loop_i_coords (rest pre : list (point T)) (xs ys : list T) :
  for_each
    (map (fun k => (0 + Z.of_nat k)%Z)
         (seq (List.length pre) (List.length rest)))
    (fun i (st : list T * list T) =>
       let (xCoord, yCoord) := st in
       p <- getitem (pre ++ rest) i ;;
       let xCoord := xCoord ++ [px p] in
       q <- getitem (pre ++ rest) i ;;
       let yCoord := yCoord ++ [py q] in
       Ok (xCoord, yCoord))
    (xs, ys)
  = Ok (xs ++ map px rest, ys ++ map py rest).
Proof.
  revert pre xs ys.
  induction rest as [| a rest IH]; intros pre xs ys.
  - cbn. now rewrite !app_nil_r.
  - cbn [List.length seq map for_each].
    rewrite Z.add_0_l, getitem_middle. cbn [bind].
    specialize (IH (pre ++ [a]) (xs ++ [px a]) (ys ++ [py a])).
    rewrite length_app, <- app_assoc in IH. cbn [List.length app] in IH.
    rewrite Nat.add_1_r in IH. rewrite IH.
    now rewrite <- !app_assoc.
Qed.

Lemma conver_map L : conver L = Ok [map px L; map py L].
Proof.
  unfold conver. rewrite range_0.
  replace (Z.to_nat (len L)) with (List.length L) by (unfold len; lia).
  pose proof (loop_i_coords L [] [] []) as H. cbn [List.length app] in H.
  rewrite H. reflexivity.
Qed.

Lemma draw_plot (lo hi : Z) L :
  draw lo hi L
  = Ok [xlim lo hi; ylim lo hi; axis "equal"; plot (map px L) (map py L)].
Proof. unfold draw. rewrite conver_map. reflexivity. Qed.

(** *** The two base polylines *)

Lemma koch_base_anchored :
  anchored (Point (of_Z 0) (of_Z 0)) koch_closing koch_base.
Proof. repeat split. cbn. lia. Qed.

Lemma flake_base_anchored :
  anchored (Point (of_Z 0) (of_Z 0)) flake_closing flake_base.
Proof. repeat split. cbn. lia. Qed.

End Loops.

(** ** The subdivider in exact arithmetic *)

Local Open Scope R_scope.

Lemma point_eq (x y x' y' : R) : x = x' -> y = y' -> Point x y = Point x' y'.
Proof. now intros -> ->. Qed.

Lemma sqrt3_sq : R_sqrt.sqrt 3 * R_sqrt.sqrt 3 = 3.
Proof. apply sqrt_sqrt. lra. Qed.

Lemma inner_nonneg (v : point R) : 0 <= inner v v.
Proof. unfold inner. nra. Qed.

Lemma norm_sq (v : point R) : norm v * norm v = inner v v.
Proof. apply sqrt_sqrt, inner_nonneg. Qed.

Lemma norm_nonneg (v : point R) : 0 <= norm v.
Proof. apply sqrt_pos. Qed.

(** A length is known from its square. *)
Lemma norm_from_square (v : point R) (c : R) :
  0 <= c -> inner v v = c * c -> norm v = c.
Proof.
  intros Hc Hsq. unfold norm.
  apply sqrt_lem_1; [apply inner_nonneg | exact Hc | now symmetry].
Qed.

Ltac unfold_plane :=
  cbv [third midpoint rot dist inner vadd vsub smul vdiv dot
       px py m00 m01 m10 m11 add sub mul div sqrt of_Z Scalar_R].

Ltac decimals := cbv [Q2R QArith_base.Qnum QArith_base.Qden].

Ltac each_point :=
  repeat (apply (f_equal2 (@cons (point R)));
          [apply point_eq; decimals; field |]);
  try reflexivity.

(** Over the reals, where the arithmetic is exact: [third a b] is the list of
    [a], the point at one third, the apex [(a+b)/2 + (sqrt(3)/6) * rot(b-a)]
    with [rot (dx,dy) = (-dy,dx)], the point at two thirds, and [b]. *)
Theorem third_five_points :
  (forall a b : point R,
     third a b =
     [ a;
       vadd (smul (2 / 3) a) (smul (1 / 3) b);
       vadd (vdiv (vadd a b) 2) (smul (R_sqrt.sqrt 3 / 6) (rot (vsub b a)));
       vadd (smul (1 / 3) a) (smul (2 / 3) b);
       b ])
  /\ third (Point 0 0) (Point 1 0) =
     [ Point 0 0; Point (1 / 3) 0; Point 0.5 (R_sqrt.sqrt 3 / 6);
       Point (2 / 3) 0; Point 1 0 ].
Proof.
  split.
  - intros [x1 y1] [x2 y2]. unfold_plane.
    each_point.
  - unfold_plane.
    each_point.
Qed.

(** Over the reals, where the arithmetic is exact: in
    [third a b = [p0,p1,p2,p3,p4]] the apex [p2] lies off the midpoint of [a],
    [b] by a vector of length [|b-a| * sqrt(3)/6] perpendicular to [b-a], and
    the four segments [p0 p1], [p1 p2], [p2 p3], [p3 p4] all have length
    [|b-a|/3]. *)
Theorem bump_is_equilateral (a b : point R) :
  exists p0 p1 p2 p3 p4 : point R,
    third a b = [p0; p1; p2; p3; p4]
    /\ norm (vsub p2 (midpoint a b)) = norm (vsub b a) * R_sqrt.sqrt 3 / 6
    /\ inner (vsub p2 (midpoint a b)) (vsub b a) = 0
    /\ dist p0 p1 = norm (vsub b a) / 3
    /\ dist p1 p2 = norm (vsub b a) / 3
    /\ dist p2 p3 = norm (vsub b a) / 3
    /\ dist p3 p4 = norm (vsub b a) / 3.
Proof.
  do 5 eexists. split; [reflexivity |].
  pose proof (norm_nonneg (vsub b a)) as Hn.
  pose proof (norm_sq (vsub b a)) as Hs.
  pose proof sqrt3_sq as H3.
  pose proof (sqrt_pos 3) as H3pos.
  set (s := norm (vsub b a)) in *.
  assert (Hs' : s * s =
                (px b - px a) * (px b - px a) + (py b - py a) * (py b - py a))
    by (rewrite Hs; reflexivity).
  clearbody s. clear Hs.
  set (r := R_sqrt.sqrt 3) in H3, H3pos |- *.
  destruct a as [x1 y1], b as [x2 y2]. cbn [px py] in Hs'.
  repeat split.
  - apply norm_from_square; [nra |].
    unfold_plane; fold r.
    transitivity (r * r * ((x2 - x1) * (x2 - x1) + (y2 - y1) * (y2 - y1)) / 36);
      [field | rewrite <- Hs'; field].
  - unfold_plane; fold r. field.
  - apply norm_from_square; [lra |].
    unfold_plane; fold r.
    transitivity (((x2 - x1) * (x2 - x1) + (y2 - y1) * (y2 - y1)) / 9);
      [field | rewrite <- Hs'; field].
  - apply norm_from_square; [lra |].
    unfold_plane; fold r.
    transitivity ((1 + r * r) *
                  ((x2 - x1) * (x2 - x1) + (y2 - y1) * (y2 - y1)) / 36);
      [field | rewrite H3, <- Hs'; field].
  - apply norm_from_square; [lra |].
    unfold_plane; fold r.
    transitivity ((1 + r * r) *
                  ((x2 - x1) * (x2 - x1) + (y2 - y1) * (y2 - y1)) / 36);
      [field | rewrite H3, <- Hs'; field].
  - apply norm_from_square; [lra |].
    unfold_plane; fold r.
    transitivity (((x2 - x1) * (x2 - x1) + (y2 - y1) * (y2 - y1)) / 9);
      [field | rewrite <- Hs'; field].
Qed.

Local Close Scope R_scope.

(** ** The subdivider in binary64 *)

Lemma digits_shift52 (m : positive) :
  Zpos (digits2_pos (Pos.mul 4503599627370496 m))
  = (Zpos (digits2_pos m) + 52)%Z.
Proof. cbn [Pos.mul digits2_pos]. lia. Qed.

(** Rounding [m * 2^52] at the exponent [e - 52] gives [m] at [e] back. *)
Lemma round_shift52 (s : bool) (m : positive) (e : Z) :
  bounded prec emax m e = true ->
  binary_round_aux prec emax s (Zpos (Pos.mul 4503599627370496 m))
                   (-52 + e) loc_Exact
  = S754_finite s m e.
Proof.
  intros Hb. apply andb_prop in Hb. destruct Hb as [Hc Hle].
  apply Z.eqb_eq in Hc.
  unfold binary_round_aux, shr_fexp.
  unfold Zdigits2 at 1. rewrite digits_shift52.
  replace (Z.pos (digits2_pos m) + 52 + (-52 + e))%Z
    with (Z.pos (digits2_pos m) + e)%Z by lia.
  rewrite Hc. replace (e - (-52 + e))%Z with 52%Z by lia.
  cbn [Pos.mul shr shr_record_of_loc iter_pos shr_1 orb].
  cbn [shr_m loc_of_shr_record round_nearest_even Zdigits2].
  replace (-52 + e + 52)%Z with e by lia.
  rewrite Hc, Z.sub_diag. cbn [shr shr_m shr_record_of_loc].
  now rewrite Hle.
Qed.

Lemma mul_one (x : float) : PrimFloat.mul 1 x = x.
Proof.
  apply Prim2SF_inj. rewrite FloatAxioms.mul_spec.
  pose proof (Prim2SF_valid x) as Hv.
  change (Prim2SF 1) with (S754_finite false 4503599627370496 (-52)).
  destruct (Prim2SF x) as [s | s | | s m e]; try reflexivity.
  unfold SF64mul, SFmul. cbn [xorb]. apply round_shift52. exact Hv.
Qed.

Lemma mul_minus_one (x : float) : PrimFloat.mul (-1) x = PrimFloat.opp x.
Proof.
  apply Prim2SF_inj. rewrite FloatAxioms.mul_spec, FloatAxioms.opp_spec.
  pose proof (Prim2SF_valid x) as Hv.
  change (Prim2SF (-1)) with (S754_finite true 4503599627370496 (-52)).
  destruct (Prim2SF x) as [s | s | | s m e]; try reflexivity.
  unfold SF64mul, SFmul. cbn [xorb SFopp]. apply round_shift52. exact Hv.
Qed.

Lemma mul_zero_finite (x : float) :
  finite64 x = true -> zero64 (PrimFloat.mul 0 x) = true.
Proof.
  unfold finite64, zero64. rewrite FloatAxioms.mul_spec.
  change (Prim2SF 0) with (S754_zero false).
  destruct (Prim2SF x); intros H; try discriminate H; reflexivity.
Qed.

Lemma mul_finite_zero (c z : float) :
  finite64 c = true -> zero64 z = true -> zero64 (PrimFloat.mul c z) = true.
Proof.
  unfold finite64, zero64. rewrite FloatAxioms.mul_spec.
  destruct (Prim2SF c), (Prim2SF z); intros Hc Hz;
    try discriminate Hc; try discriminate Hz; reflexivity.
Qed.

Lemma add_zero_l (z g : float) :
  zero64 z = true -> zero64 g = false -> PrimFloat.add z g = g.
Proof.
  unfold zero64. intros Hz Hg. apply Prim2SF_inj. rewrite FloatAxioms.add_spec.
  destruct (Prim2SF z), (Prim2SF g);
    try discriminate Hz; try discriminate Hg; reflexivity.
Qed.

Lemma add_zero_r (g z : float) :
  zero64 z = true -> zero64 g = false -> PrimFloat.add g z = g.
Proof.
  unfold zero64. intros Hz Hg. apply Prim2SF_inj. rewrite FloatAxioms.add_spec.
  destruct (Prim2SF z), (Prim2SF g);
    try discriminate Hz; try discriminate Hg; reflexivity.
Qed.

Lemma add_zeros (z1 z2 : float) :
  zero64 z1 = true -> zero64 z2 = true ->
  zero64 (PrimFloat.add z1 z2) = true.
Proof.
  unfold zero64. rewrite FloatAxioms.add_spec.
  destruct (Prim2SF z1) as [[|] | | |], (Prim2SF z2) as [[|] | | |];
    intros H1 H2; try discriminate H1; try discriminate H2; reflexivity.
Qed.

Lemma zero64_opp (x : float) : zero64 (PrimFloat.opp x) = zero64 x.
Proof. unfold zero64. rewrite FloatAxioms.opp_spec. now destruct (Prim2SF x). Qed.

Lemma same_refl (x : float) : same_number x x.
Proof. now left. Qed.

Lemma same_mul (c u v : float) :
  finite64 c = true -> same_number u v ->
  same_number (PrimFloat.mul c u) (PrimFloat.mul c v).
Proof.
  intros Hc [-> | [Hu Hv]]; [now left | right].
  split; apply mul_finite_zero; assumption.
Qed.

Lemma same_add (m u v : float) :
  same_number u v -> same_number (PrimFloat.add m u) (PrimFloat.add m v).
Proof.
  intros [-> | [Hu Hv]]; [now left |].
  destruct (zero64 m) eqn:Hm.
  - right. split; apply add_zeros; assumption.
  - left. now rewrite !add_zero_r.
Qed.

(** The product by the matrix [[0,-1],[1,0]], coordinate by coordinate. *)
Lemma turn_x (dx dy : float) :
  finite64 dx = true ->
  same_number (PrimFloat.add (PrimFloat.mul 0 dx) (PrimFloat.mul (-1) dy))
              (PrimFloat.opp dy)
  /\ (zero64 dy = false ->
      PrimFloat.add (PrimFloat.mul 0 dx) (PrimFloat.mul (-1) dy)
      = PrimFloat.opp dy).
Proof.
  intros Hdx. rewrite mul_minus_one.
  pose proof (mul_zero_finite dx Hdx) as Hz.
  pose proof (zero64_opp dy) as Ho.
  split.
  - destruct (zero64 (PrimFloat.opp dy)) eqn:Hg.
    + right. split; [now apply add_zeros | exact Hg].
    + left. now apply add_zero_l.
  - intros Hdy. apply add_zero_l; [exact Hz | now rewrite Ho].
Qed.

Lemma turn_y (dx dy : float) :
  finite64 dy = true ->
  same_number (PrimFloat.add (PrimFloat.mul 1 dx) (PrimFloat.mul 0 dy)) dx
  /\ (zero64 dx = false ->
      PrimFloat.add (PrimFloat.mul 1 dx) (PrimFloat.mul 0 dy) = dx).
Proof.
  intros Hdy. rewrite mul_one.
  pose proof (mul_zero_finite dy Hdy) as Hz.
  split.
  - destruct (zero64 dx) eqn:Hg.
    + right. split; [now apply add_zeros | exact Hg].
    + left. now apply add_zero_r.
  - intros Hdx. now apply add_zero_r.
Qed.

Ltac unfold_binary64 :=
  cbv [third five_points rot64 vadd vsub smul vdiv dot
       px py m00 m01 m10 m11 add sub mul div sqrt of_Z Scalar_binary64];
  change (float_of_Z 0) with 0%float;
  change (float_of_Z 1) with 1%float;
  change (float_of_Z (-1)) with (-1)%float.

(** C1, as binary64 has it: when the two coordinates of [b - a] are finite,
    the five points of [third a b] are [a], [(2/3)a + (1/3)b],
    [(a+b)/2 + (sqrt(3)/6) * rot(b-a)] with [rot (dx,dy) = (-dy,dx)],
    [(1/3)a + (2/3)b] and [b], each evaluated in binary64 from left to right,
    as numbers: a zero may come with the other sign.  They are the same
    floats when neither coordinate of [b - a] is zero.  And
    [third([0,0],[1,0])] is [[0,0],[1/3,0],[0.5,sqrt(3)/6],[2/3,0],[1,0]]. *)
Theorem third_five_points_binary64 :
  (forall a b : point float,
      finite64 (px (vsub b a)) = true -> finite64 (py (vsub b a)) = true ->
      Forall2 same_point (third a b) (five_points rot64 a b)
      /\ (zero64 (px (vsub b a)) = false -> zero64 (py (vsub b a)) = false ->
          third a b = five_points rot64 a b))
  /\ third (Point 0%float 0%float) (Point 1%float 0%float) =
     [ Point 0%float 0%float;
       Point (PrimFloat.div 1 3) 0%float;
       Point 0.5%float (PrimFloat.div (PrimFloat.sqrt 3) 6);
       Point (PrimFloat.div 2 3) 0%float;
       Point 1%float 0%float ].
Proof.
  split; [| vm_compute; reflexivity].
  intros [x1 y1] [x2 y2]. cbv [vsub px py sub Scalar_binary64].
  intros Hdx Hdy.
  destruct (@turn_x (PrimFloat.sub x2 x1) (PrimFloat.sub y2 y1) Hdx)
    as [Sx Ex].
  destruct (@turn_y (PrimFloat.sub x2 x1) (PrimFloat.sub y2 y1) Hdy)
    as [Sy Ey].
  assert (Hc : finite64 (PrimFloat.div (PrimFloat.sqrt (float_of_Z 3))
                                       (float_of_Z 6)) = true)
    by (vm_compute; reflexivity).
  split.
  - unfold_binary64.
    repeat (apply Forall2_cons; [split; try apply same_refl |]);
      [| | apply Forall2_nil].
    + apply same_add, same_mul; assumption.
    + apply same_add, same_mul; assumption.
  - intros Zx Zy. unfold_binary64.
    now rewrite (Ex Zy), (Ey Zx).
Qed.

Lemma third_five_points_binary64_witness :
  finite64 (px (vsub (Point 1%float 0%float) (Point 0%float 0%float))) = true
  /\ finite64 (py (vsub (Point 1%float 0%float) (Point 0%float 0%float)))
     = true
  /\ Forall2 same_point
       (third (Point 0%float 0%float) (Point 1%float 0%float))
       (five_points rot64 (Point 0%float 0%float) (Point 1%float 0%float)).
Proof.
  assert (Hx : finite64 (px (vsub (Point 1%float 0%float)
                                  (Point 0%float 0%float))) = true)
    by (vm_compute; reflexivity).
  assert (Hy : finite64 (py (vsub (Point 1%float 0%float)
                                  (Point 0%float 0%float))) = true)
    by (vm_compute; reflexivity).
  split; [exact Hx |]. split; [exact Hy |].
  exact (proj1 (proj1 third_five_points_binary64 _ _ Hx Hy)).
Defined.

(** C1 as stated fails in binary64: from [(-2^1023, 0)] to [(2^1023, 0)] the
    difference overflows, the product by the matrix has [0 * inf], and the
    apex of [third] is [(nan, inf)] where the quarter turn gives
    [(0, inf)]. *)
Lemma third_overflow :
  third (Point (-0x1p1023)%float 0%float) (Point 0x1p1023%float 0%float)
  <> five_points rot64 (Point (-0x1p1023)%float 0%float)
                       (Point 0x1p1023%float 0%float)
  /\ ~ Forall2 same_point
         (third (Point (-0x1p1023)%float 0%float)
                (Point 0x1p1023%float 0%float))
         (five_points rot64 (Point (-0x1p1023)%float 0%float)
                            (Point 0x1p1023%float 0%float)).
Proof.
  split.
  - intros H.
    apply (f_equal (fun l => finite64 (px (nth 2 l (Point 0%float 0%float)))))
      in H.
    vm_compute in H. discriminate H.
  - intros H.
    inversion H as [| ? ? ? ? _ H1]; subst.
    inversion H1 as [| ? ? ? ? _ H2]; subst.
    inversion H2 as [| ? ? ? ? [[E | [Z1 _]] _] _]; subst.
    + apply (f_equal finite64) in E. vm_compute in E. discriminate E.
    + vm_compute in Z1. discriminate Z1.
Qed.

(** ** The bump, measured on the points binary64 computes *)






(** ** The curve builder *)

(** C2: for a polyline [P] of at least two points, one pass (the body of the
    loop over [i], which is what one generation runs) gives a list made of one
    group per pair of neighbours [P[k]], [P[k+1]], the first four points of
    [third(P[k], P[k+1])], then one closing point; from [[[0,0],[3,0]]] it
    gives [[0,0],[1,0],[1.5,sqrt(3)/2],[2,0],[3,0]]. *)
Theorem one_pass_groups :
  (forall (T : Type) (ST : Scalar T) (closing : point T) (P : list (point T)),
      (2 <= List.length P)%nat ->
      exists K : list (point T),
        generation closing P = Ok K
        /\ generations closing P 1 = Ok K
        /\ List.length K = (4 * (List.length P - 1) + 1)%nat
        /\ (forall (k : nat) (a b : point T),
               nth_error P k = Some a -> nth_error P (S k) = Some b ->
               firstn 4 (skipn (4 * k) K) = firstn 4 (third a b))
        /\ skipn (4 * (List.length P - 1)) K = [closing])
  /\ koch_L (T := R) 1 =
     Ok [ Point 0%R 0%R; Point 1%R 0%R;
          Point 1.5%R (R_sqrt.sqrt 3 / 2)%R;
          Point 2%R 0%R; Point 3%R 0%R ].
Proof.
  split.
  - intros T ST closing P _. exists (pass closing P).
    split; [apply generation_pass |].
    split; [exact (generations_passes closing P 1) |].
    split; [apply length_pass |].
    split; [intros k a b; apply pass_group |].
    unfold pass. rewrite <- length_bumps, skipn_app, Nat.sub_diag, skipn_all.
    reflexivity.
  - unfold koch_L. rewrite generations_passes. f_equal.
    cbv [Z.to_nat Pos.to_nat Pos.iter_op passes pass bumps firstn app
         koch_base koch_closing].
    unfold_plane. each_point.
Qed.

Lemma one_pass_groups_witness :
  (2 <= List.length (koch_base (T := float)))%nat
  /\ exists K : list (point float),
      generation koch_closing koch_base = Ok K
      /\ generations koch_closing koch_base 1 = Ok K
      /\ List.length K = (4 * (List.length (koch_base (T := float)) - 1) + 1)%nat
      /\ (forall (k : nat) (a b : point float),
             nth_error koch_base k = Some a ->
             nth_error koch_base (S k) = Some b ->
             firstn 4 (skipn (4 * k) K) = firstn 4 (third a b))
      /\ skipn (4 * (List.length (koch_base (T := float)) - 1)) K
         = [koch_closing].
Proof.
  assert (H : (2 <= List.length (koch_base (T := float)))%nat)
    by (cbn; lia).
  split; [exact H |].
  exact (proj1 one_pass_groups float Scalar_binary64 koch_closing koch_base H).
Defined.

(** C3: after [n >= 0] generations a base of [L] segments has become a
    polyline of [L * 4^n] segments, that is [L * 4^n + 1] points; [koch(n)]
    has [4^n + 1] points and [flake(n)] has [3 * 4^n + 1]. *)
Theorem segment_count_growth (T : Type) (ST : Scalar T) (n : Z) :
  (0 <= n)%Z ->
  (forall (closing : point T) (base : list (point T)) (L : nat),
      List.length base = S L ->
      exists K : list (point T),
        generations closing base n = Ok K
        /\ len K = (Z.of_nat L * 4 ^ n + 1)%Z)
  /\ (exists K : list (point T),
        koch_L n = Ok K /\ len K = (4 ^ n + 1)%Z)
  /\ (exists K : list (point T),
        flake_L n = Ok K /\ len K = (3 * 4 ^ n + 1)%Z).
Proof.
  intros Hn.
  assert (G : forall (closing : point T) (base : list (point T)) (L : nat),
             List.length base = S L ->
             exists K : list (point T),
               generations closing base n = Ok K
               /\ len K = (Z.of_nat L * 4 ^ n + 1)%Z).
  { intros closing base L HL.
    exists (passes closing (Z.to_nat n) base).
    split; [apply generations_passes |].
    unfold len. rewrite length_passes by lia.
    rewrite HL, Nat2Z.inj_add, Nat2Z.inj_mul, Nat2Z.inj_pow, Z2Nat.id by lia.
    replace (S L - 1)%nat with L by lia. reflexivity. }
  split; [exact G |]. split.
  - destruct (G koch_closing koch_base 1%nat eq_refl) as (K & HK & Hlen).
    exists K. split; [exact HK | rewrite Hlen; lia].
  - destruct (G flake_closing flake_base 3%nat eq_refl) as (K & HK & Hlen).
    exists K. split; [exact HK | rewrite Hlen; lia].
Qed.

Lemma segment_count_growth_witness :
  (0 <= 2)%Z
  /\ List.length (flake_base (T := float)) = 4%nat
  /\ (exists K : list (point float),
         generations flake_closing flake_base 2 = Ok K
         /\ len K = (Z.of_nat 3 * 4 ^ 2 + 1)%Z)
  /\ (exists K : list (point float),
         koch_L 2 = Ok K /\ len K = (4 ^ 2 + 1)%Z)
  /\ (exists K : list (point float),
         flake_L 2 = Ok K /\ len K = (3 * 4 ^ 2 + 1)%Z).
Proof.
  assert (H : (0 <= 2)%Z) by lia.
  assert (HL : List.length (flake_base (T := float)) = 4%nat) by reflexivity.
  split; [exact H |]. split; [exact HL |]. split.
  - exact (proj1 (segment_count_growth Scalar_binary64 H)
             flake_closing flake_base 3%nat HL).
  - exact (proj2 (segment_count_growth Scalar_binary64 H)).
Defined.

(** C4: for [n >= 0] the polyline of [koch(n)] starts and ends where the
    base does, at [[0,0]] and at [[3,0]]. *)
Theorem koch_endpoints (T : Type) (ST : Scalar T) (n : Z) :
  (0 <= n)%Z ->
  exists K : list (point T),
    koch_L n = Ok K
    /\ getitem K 0 = getitem koch_base 0
    /\ getitem K 0 = Ok (Point (of_Z 0) (of_Z 0))
    /\ getitem K (-1) = getitem koch_base (-1)
    /\ getitem K (-1) = Ok (Point (of_Z 3) (of_Z 0)).
Proof.
  intros _. exists (passes koch_closing (Z.to_nat n) koch_base).
  split; [apply generations_passes |].
  destruct (anchored_passes (Z.to_nat n) koch_base_anchored)
    as (_ & Hfirst & Hlast).
  rewrite Hfirst, Hlast. repeat split.
Qed.

Lemma koch_endpoints_witness :
  (0 <= 3)%Z
  /\ exists K : list (point float),
      koch_L 3 = Ok K
      /\ getitem K 0 = getitem koch_base 0
      /\ getitem K 0 = Ok (Point (of_Z 0) (of_Z 0))
      /\ getitem K (-1) = getitem koch_base (-1)
      /\ getitem K (-1) = Ok (Point (of_Z 3) (of_Z 0)).
Proof.
  assert (H : (0 <= 3)%Z) by lia.
  split; [exact H |].
  exact (koch_endpoints Scalar_binary64 H).
Defined.

(** C5: for [n >= 0] the polyline of [flake(n)] is closed: its first point
    and its last point are both [[0,0]], where the base starts. *)
Theorem flake_closed (T : Type) (ST : Scalar T) (n : Z) :
  (0 <= n)%Z ->
  exists K : list (point T),
    flake_L n = Ok K
    /\ getitem K 0 = getitem K (-1)
    /\ getitem K 0 = getitem flake_base 0
    /\ getitem K 0 = Ok (Point (of_Z 0) (of_Z 0)).
Proof.
  intros _. exists (passes flake_closing (Z.to_nat n) flake_base).
  split; [apply generations_passes |].
  destruct (anchored_passes (Z.to_nat n) flake_base_anchored)
    as (_ & Hfirst & Hlast).
  rewrite Hfirst, Hlast. repeat split.
Qed.

Lemma flake_closed_witness :
  (0 <= 2)%Z
  /\ exists K : list (point float),
      flake_L 2 = Ok K
      /\ getitem K 0 = getitem K (-1)
      /\ getitem K 0 = getitem flake_base 0
      /\ getitem K 0 = Ok (Point (of_Z 0) (of_Z 0)).
Proof.
  assert (H : (0 <= 2)%Z) by lia.
  split; [exact H |].
  exact (flake_closed Scalar_binary64 H).
Defined.

(** C6, as the code has it: a negative [n] raises nothing; the loop over
    [range(0, n)] runs no pass and the base polyline is drawn, as for
    [n = 0]. *)
Theorem negative_count_is_zero_passes (T : Type) (ST : Scalar T) (n : Z) :
  (n < 0)%Z ->
  koch_L n = Ok koch_base
  /\ flake_L n = Ok flake_base
  /\ koch n = koch 0
  /\ flake n = flake 0
  /\ (forall e : error, koch n <> Raise e)
  /\ (forall e : error, flake n <> Raise e).
Proof.
  intros Hn.
  assert (HK : koch_L n = Ok koch_base).
  { unfold koch_L, generations. now rewrite range_nonpos by lia. }
  assert (HF : flake_L n = Ok flake_base).
  { unfold flake_L, generations. now rewrite range_nonpos by lia. }
  repeat split; try assumption.
  - unfold koch. now rewrite HK.
  - unfold flake. now rewrite HF.
  - intros e. unfold koch. rewrite HK. cbn [bind]. rewrite draw_plot.
    discriminate.
  - intros e. unfold flake. rewrite HF. cbn [bind]. rewrite draw_plot.
    discriminate.
Qed.

Lemma negative_count_is_zero_passes_witness :
  (-2 < 0)%Z
  /\ koch_L (T := float) (-2) = Ok koch_base
  /\ flake_L (T := float) (-2) = Ok flake_base
  /\ koch (T := float) (-2) = koch 0
  /\ flake (T := float) (-2) = flake 0
  /\ (forall e : error, koch (T := float) (-2) <> Raise e)
  /\ (forall e : error, flake (T := float) (-2) <> Raise e).
Proof.
  assert (H : (-2 < 0)%Z) by lia.
  split; [exact H |].
  exact (negative_count_is_zero_passes Scalar_binary64 H).
Defined.

(** C6 as stated fails: [koch(-1)] and [flake(-1)] raise no error, they
    draw the base polylines. *)
Lemma negative_count_not_rejected :
  koch (T := R) (-1) =
    Ok [xlim 0 3; ylim 0 3; axis "equal"; plot [0%R; 3%R] [0%R; 0%R]]
  /\ flake (T := R) (-1) =
    Ok [xlim (-3) 3; ylim (-3) 3; axis "equal";
        plot [0%R; 3%R; 1.5%R; 0%R]
             [0%R; 0%R; (-3 * R_sqrt.sqrt 3 / 2)%R; 0%R]]
  /\ ~ (forall n : Z, (n < 0)%Z ->
          exists e : error, koch (T := R) n = Raise e)
  /\ ~ (forall n : Z, (n < 0)%Z ->
          exists e : error, flake (T := R) n = Raise e).
Proof.
  repeat split.
  - intros H. destruct (H (-1)%Z eq_refl) as [e He]. discriminate He.
  - intros H. destruct (H (-1)%Z eq_refl) as [e He]. discriminate He.
Qed.

(** C7: with [n = 0] no pass runs and the base polyline is what comes out:
    [koch(0)] computes [[0,0],[3,0]] and [flake(0)] computes
    [[0,0],[3,0],[1.5,-3*sqrt(3)/2],[0,0]]. *)
Theorem zero_generations_is_base :
  (forall (T : Type) (ST : Scalar T) (closing : point T)
          (base : list (point T)),
      generations closing base 0 = Ok base)
  /\ koch_L (T := R) 0 = Ok [Point 0%R 0%R; Point 3%R 0%R]
  /\ flake_L (T := R) 0 =
     Ok [ Point 0%R 0%R; Point 3%R 0%R;
          Point 1.5%R (-3 * R_sqrt.sqrt 3 / 2)%R; Point 0%R 0%R ].
Proof. repeat split. Qed.

(** ** The coordinate extractor *)

(** C9: for a polyline [P] of [k] points [conver(P)] is a pair of lists
    [xs], [ys] of length [k] each, with [xs[i]] the first and [ys[i]] the
    second coordinate of [P[i]], unchanged and in the order of [P]. *)
Theorem conver_coordinates (T : Type) (ST : Scalar T) (P : list (point T)) :
  exists xs ys : list T,
    conver P = Ok [xs; ys]
    /\ List.length xs = List.length P
    /\ List.length ys = List.length P
    /\ (forall (i : nat) (p : point T),
           nth_error P i = Some p ->
           nth_error xs i = Some (px p) /\ nth_error ys i = Some (py p)).
Proof.
  exists (map px P), (map py P).
  split; [apply conver_map |].
  rewrite !length_map. repeat split.
  - now apply map_nth_error.
  - now apply map_nth_error.
Qed.

(** C10: for [n >= 0] the vertex at index [i] of generation [n] of [koch],
    and of [flake], is the vertex at index [4 * i] of generation [n + 1]. *)
Theorem generations_refine (T : Type) (ST : Scalar T) (n : Z) :
  (0 <= n)%Z ->
  (exists K K' : list (point T),
      koch_L n = Ok K /\ koch_L (n + 1) = Ok K'
      /\ forall i : nat, (i < List.length K)%nat ->
           nth_error K' (4 * i) = nth_error K i)
  /\ (exists K K' : list (point T),
         flake_L n = Ok K /\ flake_L (n + 1) = Ok K'
         /\ forall i : nat, (i < List.length K)%nat ->
              nth_error K' (4 * i) = nth_error K i).
Proof.
  intros Hn.
  assert (G : forall (a closing : point T) (base : list (point T)),
             anchored a closing base ->
             exists K K' : list (point T),
               generations closing base n = Ok K
               /\ generations closing base (n + 1) = Ok K'
               /\ forall i : nat, (i < List.length K)%nat ->
                    nth_error K' (4 * i) = nth_error K i).
  { intros a closing base Hbase.
    exists (passes closing (Z.to_nat n) base).
    exists (pass closing (passes closing (Z.to_nat n) base)).
    split; [apply generations_passes |].
    split.
    - rewrite generations_passes.
      replace (Z.to_nat (n + 1)) with (S (Z.to_nat n)) by lia.
      now rewrite passes_succ.
    - apply pass_keeps_vertices.
      apply (anchored_passes (Z.to_nat n) Hbase). }
  split.
  - exact (G _ _ _ koch_base_anchored).
  - exact (G _ _ _ flake_base_anchored).
Qed.

Lemma generations_refine_witness :
  (0 <= 1)%Z
  /\ exists K K' : list (point float),
      koch_L 1 = Ok K /\ koch_L (1 + 1) = Ok K'
      /\ forall i : nat, (i < List.length K)%nat ->
           nth_error K' (4 * i) = nth_error K i.
Proof.
  assert (H : (0 <= 1)%Z) by lia.
  split; [exact H |].
  exact (proj1 (generations_refine Scalar_binary64 H)).
Defined.

(** ** Further properties of the builder and the extractor *)

Section Builder.

Context {T : Type} {ST : Scalar T}.

Implicit Types (L K : list (point T)) (a b closing : point T).

Lemma passes_add closing (j k : nat) L :
  passes closing (j + k) L = passes closing k (passes closing j L).
Proof.
  revert L. induction j as [| j IH]; intros L; [reflexivity |].
  cbn [Nat.add passes]. apply IH.
Qed.

(** X1: [koch(n)] and [flake(n)] raise nothing, whatever the integer [n]:
    each makes the four calls [xlim], [ylim], [axis('equal')] and [plot], and
    [plot] gets the first and the second coordinates of the polyline the loop
    has built. *)
Theorem koch_flake_draw (n : Z) :
  (exists K,
      koch_L n = Ok K
      /\ koch n = Ok [xlim 0 3; ylim 0 3; axis "equal";
                      plot (map px K) (map py K)])
  /\ (exists K,
         flake_L n = Ok K
         /\ flake n = Ok [xlim (-3) 3; ylim (-3) 3; axis "equal";
                          plot (map px K) (map py K)]).
Proof.
  split.
  - exists (passes koch_closing (Z.to_nat n) koch_base).
    assert (H : koch_L n = Ok (passes koch_closing (Z.to_nat n) koch_base))
      by apply generations_passes.
    split; [exact H |]. unfold koch. rewrite H. apply draw_plot.
  - exists (passes flake_closing (Z.to_nat n) flake_base).
    assert (H : flake_L n = Ok (passes flake_closing (Z.to_nat n) flake_base))
      by apply generations_passes.
    split; [exact H |]. unfold flake. rewrite H. apply draw_plot.
Qed.

(** X2: generations add up: [m + n] passes are [m] passes followed by [n]
    passes on their result, for [m >= 0] and [n >= 0]. *)
Theorem generations_compose closing L (m n : Z) :
  (0 <= m)%Z -> (0 <= n)%Z ->
  generations closing L (m + n)
  = (L' <- generations closing L m ;; generations closing L' n).
Proof.
  intros Hm Hn. rewrite !generations_passes. cbn [bind].
  rewrite generations_passes, Z2Nat.inj_add by lia.
  now rewrite passes_add.
Qed.

(** X3: a polyline of fewer than two points has no pair of neighbours: a
    pass raises nothing and leaves the closing point alone, and so does any
    number [n >= 1] of passes. *)
Theorem degenerate_polyline closing L (n : Z) :
  (List.length L <= 1)%nat -> (1 <= n)%Z ->
  generation closing L = Ok [closing]
  /\ generations closing L n = Ok [closing].
Proof.
  intros HL Hn.
  assert (H1 : forall M, (List.length M <= 1)%nat -> pass closing M = [closing]).
  { intros [| x [| y M]] HM; [reflexivity | reflexivity | cbn in HM; lia]. }
  split; [rewrite generation_pass; now rewrite H1 |].
  rewrite generations_passes.
  replace (Z.to_nat n) with (S (Z.to_nat (n - 1))) by lia.
  cbn [passes]. rewrite (H1 L HL).
  induction (Z.to_nat (n - 1)) as [| k IH]; [reflexivity |].
  cbn [passes]. rewrite (H1 [closing]) by (cbn; lia). exact IH.
Qed.

(** X4: nothing is lost by [conver]: pairing its two lists again, index by
    index, gives the polyline back. *)
Theorem conver_round_trip (P : list (point T)) :
  exists xs ys : list T,
    conver P = Ok [xs; ys]
    /\ map (fun xy => Point (fst xy) (snd xy)) (combine xs ys) = P.
Proof.
  exists (map px P), (map py P). split; [apply conver_map |].
  induction P as [| [x y] P IH]; [reflexivity |].
  cbn [map combine fst snd px py]. now rewrite IH.
Qed.

Lemma passes_keep_vertices a closing (m : nat) L :
  anchored a closing L ->
  forall i : nat, (i < List.length L)%nat ->
  nth_error (passes closing m L) (4 ^ m * i) = nth_error L i.
Proof.
  intros HL i Hi. induction m as [| m IH].
  - cbn [passes Nat.pow]. now rewrite Nat.mul_1_l.
  - rewrite passes_succ, Nat.pow_succ_r', <- Nat.mul_assoc.
    destruct (anchored_passes m HL) as (Hlen & _ & Hlast).
    rewrite pass_keeps_vertices; [exact IH | exact Hlast |].
    rewrite length_passes by lia.
    assert (4 ^ m * i <= 4 ^ m * (List.length L - 1))%nat
      by (apply Nat.mul_le_mono_l; lia).
    lia.
Qed.

(** X13: the vertex at index [i] of generation [n] is the vertex at index
    [4^m * i] of generation [n + m], in [koch] and in [flake], for [n >= 0]
    and [m >= 0]. *)
Theorem generations_refine_many (n m : Z) :
  (0 <= n)%Z -> (0 <= m)%Z ->
  (exists K K',
      koch_L n = Ok K /\ koch_L (n + m) = Ok K'
      /\ forall i : nat, (i < List.length K)%nat ->
           nth_error K' (4 ^ Z.to_nat m * i) = nth_error K i)
  /\ (exists K K',
         flake_L n = Ok K /\ flake_L (n + m) = Ok K'
         /\ forall i : nat, (i < List.length K)%nat ->
              nth_error K' (4 ^ Z.to_nat m * i) = nth_error K i).
Proof.
  intros Hn Hm.
  assert (G : forall a closing L,
             anchored a closing L ->
             exists K K',
               generations closing L n = Ok K
               /\ generations closing L (n + m) = Ok K'
               /\ forall i : nat, (i < List.length K)%nat ->
                    nth_error K' (4 ^ Z.to_nat m * i) = nth_error K i).
  { intros a closing L HL.
    exists (passes closing (Z.to_nat n) L).
    exists (passes closing (Z.to_nat m) (passes closing (Z.to_nat n) L)).
    split; [apply generations_passes |]. split.
    - rewrite generations_passes, Z2Nat.inj_add by lia. now rewrite passes_add.
    - apply passes_keep_vertices with (a := a).
      apply (anchored_passes (Z.to_nat n) HL). }
  split.
  - exact (G _ _ _ koch_base_anchored).
  - exact (G _ _ _ flake_base_anchored).
Qed.

End Builder.

Lemma generations_refine_many_witness :
  (0 <= 1)%Z /\ (0 <= 2)%Z
  /\ exists K K' : list (point float),
      flake_L 1 = Ok K /\ flake_L (1 + 2) = Ok K'
      /\ forall i : nat, (i < List.length K)%nat ->
           nth_error K' (4 ^ Z.to_nat 2 * i) = nth_error K i.
Proof.
  assert (H1 : (0 <= 1)%Z) by lia.
  assert (H2 : (0 <= 2)%Z) by lia.
  split; [exact H1 |]. split; [exact H2 |].
  exact (proj2 (generations_refine_many (ST := Scalar_binary64) H1 H2)).
Defined.

Lemma generations_compose_witness :
  (0 <= 1)%Z /\ (0 <= 2)%Z
  /\ generations (T := float) flake_closing flake_base (1 + 2)
     = (L' <- generations flake_closing flake_base 1 ;;
        generations flake_closing L' 2).
Proof.
  assert (H1 : (0 <= 1)%Z) by lia.
  assert (H2 : (0 <= 2)%Z) by lia.
  split; [exact H1 |]. split; [exact H2 |].
  exact (generations_compose (ST := Scalar_binary64)
           flake_closing flake_base H1 H2).
Defined.

Lemma degenerate_polyline_witness :
  (List.length [Point 1%float 2%float] <= 1)%nat /\ (1 <= 3)%Z
  /\ generation koch_closing [Point 1%float 2%float] = Ok [koch_closing]
  /\ generations koch_closing [Point 1%float 2%float] 3 = Ok [koch_closing].
Proof.
  assert (H1 : (List.length [Point 1%float 2%float] <= 1)%nat) by (cbn; lia).
  assert (H2 : (1 <= 3)%Z) by lia.
  split; [exact H1 |]. split; [exact H2 |].
  exact (degenerate_polyline (ST := Scalar_binary64) koch_closing
           [Point 1%float 2%float] H1 H2).
Defined.

(** ** What binary64 computes *)

Example koch_1_binary64 :
koch_L (T := float) 1 =
Ok [Point 0%float 0%float; Point 1%float 0%float;
    Point 1.5%float (PrimFloat.div (PrimFloat.sqrt 3) 2);
    Point 2%float 0%float; Point 3%float 0%float].
Proof. vm_compute. reflexivity. Qed.

Example third_unit_binary64 :
third (T := float) (Point 0%float 0%float) (Point 1%float 0%float) =
[ Point 0%float 0%float;
  Point (PrimFloat.div 1 3) 0%float;
  Point 0.5%float (PrimFloat.div (PrimFloat.sqrt 3) 6);
  Point (PrimFloat.div 2 3) 0%float;
  Point 1%float 0%float ].
Proof. vm_compute. reflexivity. Qed.
